(** * AmbuRush: the ambulance-detection traffic signal script (main.py)

    A shallow embedding of [attached_assets/main.py]: the GPS endpoint
    [update_gps] with the process-wide dictionary [ambulance_data], the
    two disabled map-service stubs, the per-frame detection interpreter
    [detect_ambulance], the signal state [traffic_light] and the command
    line entry point with its frame loop.

    What the script delegates to libraries is kept outside the model:
    - the YOLO detector is a function from a frame to its results;
    - OpenCV drawing and display are recorded, in order, as the calls made;
    - Flask hands the handler the parsed JSON body and takes its result or
      the exception it raises. *)

From Stdlib Require Import ZArith QArith Ascii String Floats.SpecFloat.
From stdpp Require Import gmap strings list.

#[local] Set Warnings "-register-all".
#[local] Open Scope Z_scope.

(** ** Python values received as JSON *)

Module Py.

(** What [json.loads] builds: [None], [bool], [int] (unbounded), [float]
    (IEEE binary64, given by its sign, mantissa and exponent; the parser
    also accepts [NaN] and the infinities), [str], [list] and [dict] with
    [str] keys. *)
Inductive json : Type :=
  | JNull
  | JBool (b : bool)
  | JInt (z : Z)
  | JFloat (f : spec_float)
  | JStr (s : string)
  | JArr (l : list json)
  | JObj (m : gmap string json).

(** Exceptions the modelled code can raise.  A [TypeError] is kept with
    its cause, not with the interpreter's wording of it. *)
Inductive type_error : Type :=
  | unhashable_key
  | not_subscriptable
  | index_not_integer.

Inductive exn : Type :=
  | KeyError (key : string)
  | TypeError (why : type_error).

(** The mathematical value of a number, which is what [==] between [bool],
    [int] and [float] compares. *)
Inductive pynum : Type :=
  | NumNaN
  | NumInf (negative : bool)
  | NumFin (q : Q).

Definition float_value (f : spec_float) : pynum :=
  match f with
  | S754_zero _ => NumFin (0 # 1)
  | S754_infinity s => NumInf s
  | S754_nan => NumNaN
  | S754_finite s m e =>
      let sm := if s then Z.neg m else Z.pos m in
      match e with
      | Z0 => NumFin (sm # 1)
      | Z.pos p => NumFin ((sm * 2 ^ Z.pos p) # 1)
      | Z.neg p => NumFin (sm # (2 ^ p)%positive)
      end
  end.

(** The key a hashable value stands for in a [dict]: values that compare
    equal are one key ([True == 1 == 1.0]).  Lists and dicts are not
    hashable. *)
Inductive pykey : Type :=
  | KNone
  | KNum (n : pynum)
  | KStr (s : string).

Definition hash_key (v : json) : option pykey :=
  match v with
  | JNull => Some KNone
  | JBool b => Some (KNum (NumFin ((if b then 1 else 0) # 1)))
  | JInt z => Some (KNum (NumFin (z # 1)))
  | JFloat f => Some (KNum (float_value f))
  | JStr s => Some (KStr s)
  | JArr _ | JObj _ => None
  end.

Definition hashable (v : json) : bool :=
  match hash_key v with Some _ => true | None => false end.

Definition pynum_eq (a b : pynum) : bool :=
  match a, b with
  | NumFin p, NumFin q => Qeq_bool p q
  | NumInf s, NumInf t => Bool.eqb s t
  | _, _ => false
  end.

Definition pykey_eq (a b : pykey) : bool :=
  match a, b with
  | KNone, KNone => true
  | KNum x, KNum y => pynum_eq x y
  | KStr s, KStr t => String.eqb s t
  | _, _ => false
  end.

(** [a == b] for two hashable values.  A NaN equals nothing, itself
    included. *)
Definition py_eq (a b : json) : bool :=
  match hash_key a, hash_key b with
  | Some x, Some y => pykey_eq x y
  | _, _ => false
  end.

(** [a is b] where it can differ from [a == b].  Among parsed values only
    NaN is not equal to itself, and [json.loads] returns one and the same
    float object for every [NaN] it reads, in every request. *)
Definition py_is_nan (v : json) : bool :=
  match v with
  | JFloat S754_nan => true
  | _ => false
  end.

(** How a [dict] compares a key with a stored one: the same object, or
    an equal one ([a is b or a == b]). *)
Definition key_match (a b : json) : bool :=
  (py_is_nan a && py_is_nan b) || py_eq a b.

(** *** A [dict] with hashable keys

    Entries in insertion order, each with the key object first stored. *)
Definition pydict (V : Type) : Type := list (json * V).

Section Dict.
Context {V : Type}.

(** [d[k]] as an expression ([None] is the [KeyError]). *)
Fixpoint dict_get (k : json) (d : pydict V) : option V :=
  match d with
  | [] => None
  | (k0, v0) :: d' => if key_match k0 k then Some v0 else dict_get k d'
  end.

(** [d[k] = v] for a hashable [k]: the value of the entry whose key
    matches is replaced (the stored key object stays), else an entry is
    added at the end. *)
Fixpoint dict_set (k : json) (v : V) (d : pydict V) : pydict V :=
  match d with
  | [] => [(k, v)]
  | (k0, v0) :: d' =>
      if key_match k0 k then (k0, v) :: d' else (k0, v0) :: dict_set k v d'
  end.

(** [d[k] = v], with the [TypeError] of an unhashable key. *)
Definition dict_setitem (k : json) (v : V) (d : pydict V) : exn + pydict V :=
  match k with
  | JArr _ | JObj _ => inl (TypeError unhashable_key)
  | _ => inr (dict_set k v d)
  end.
End Dict.

(** [obj[key]] for a [str] key, on any parsed JSON value. *)
Definition getitem (obj : json) (key : string) : exn + json :=
  match obj with
  | JObj m =>
      match m !! key with
      | Some v => inr v
      | None => inl (KeyError key)
      end
  | JArr _ | JStr _ => inl (TypeError index_not_integer)
  | JNull | JBool _ | JInt _ | JFloat _ => inl (TypeError not_subscriptable)
  end.

End Py.
Export Py.

(** ** Frames, drawing and the program state *)

(** A BGR colour, as OpenCV takes it. *)
Definition color : Type := (Z * Z * Z)%type.
Definition point : Type := (Z * Z)%type.

Definition RED : color := (0, 0, 255).
Definition GREEN : color := (0, 255, 0).

(** [cv2.FONT_HERSHEY_SIMPLEX], and the scale literal [0.8] of the label. *)
Definition FONT_HERSHEY_SIMPLEX : Z := 0.
Definition font_scale : Q := 8 # 10.

(** The drawing calls the script makes on a frame. *)
Inductive draw_op : Type :=
  | Rectangle (pt1 pt2 : point) (c : color) (thickness : Z)
  | PutText (text : string) (org : point) (fontFace : Z) (fontScale : Q)
            (c : color) (thickness : Z)
  | Circle (center : point) (radius : Z) (c : color) (thickness : Z).

(** A frame: the pixel grid read from the capture, and what has been drawn
    on it since, oldest first (drawing changes the frame in place). *)
Record Frame : Type := mkFrame {
  pixels : list (list color);
  drawn : list draw_op
}.

Definition draw (op : draw_op) (frame : Frame) : Frame :=
  {| pixels := pixels frame; drawn := drawn frame ++ [op] |}.

Definition cv2_rectangle (frame : Frame) (pt1 pt2 : point) (c : color)
    (thickness : Z) : Frame :=
  draw (Rectangle pt1 pt2 c thickness) frame.

Definition cv2_putText (frame : Frame) (text : string) (org : point)
    (fontFace : Z) (fontScale : Q) (c : color) (thickness : Z) : Frame :=
  draw (PutText text org fontFace fontScale c thickness) frame.

Definition cv2_circle (frame : Frame) (center : point) (radius : Z)
    (c : color) (thickness : Z) : Frame :=
  draw (Circle center radius c thickness) frame.

(** One detection: [cls] is the scalar [box.cls[0]] and [xyxy] the four
    corner coordinates [box.xyxy[0]]; the detector's tensors hold finite
    numbers, given here exactly. *)
Record Box : Type := mkBox {
  cls : Q;
  xyxy : Q * Q * Q * Q
}.

Record Result : Type := mkResult { boxes : list Box }.

(** [int(x)] of a finite number: truncation towards zero. *)
Definition py_int (x : Q) : Z := Z.quot (Qnum x) (Z.pos (Qden x)).

(** [ord(c)]. *)
Definition ord (c : ascii) : Z := Z.of_N (N_of_ascii c).

Inductive source : Type :=
  | Camera (index : Z)
  | File (filename : string).

(** What the process does to the outside, in order. *)
Inductive event : Type :=
  | Print (line : string)
  | VideoCapture (src : source)
  | Imshow (winname : string) (frame : Frame)
  | Release
  | DestroyAllWindows
  | Exit (code : Z).

(** The module's globals and the trace of the process. *)
Record world : Type := mkWorld {
  ambulance_data : pydict (json * json);
  traffic_light : color;
  events : list event
}.

(** The module as loaded: [ambulance_data = {}], [traffic_light = RED]. *)
Definition initial_world : world :=
  {| ambulance_data := []; traffic_light := RED; events := [] |}.

Definition set_ambulance_data (d : pydict (json * json)) (w : world) : world :=
  {| ambulance_data := d; traffic_light := traffic_light w; events := events w |}.

Definition set_traffic_light (c : color) (w : world) : world :=
  {| ambulance_data := ambulance_data w; traffic_light := c; events := events w |}.

Definition emit (e : event) (w : world) : world :=
  {| ambulance_data := ambulance_data w; traffic_light := traffic_light w;
     events := events w ++ [e] |}.

(** ** Code that reads and writes the globals and may raise

    A computation takes the world and gives the world it leaves with an
    exception or a value; what was written before a raise stays written. *)
Definition M (A : Type) : Type := world -> world * (exn + A).

#[export] Instance M_ret : MRet M := fun A x w => (w, inr x).

#[export] Instance M_bind : MBind M := fun A B f m w =>
  match m w with
  | (w', inl e) => (w', inl e)
  | (w', inr x) => f x w'
  end.

(** An expression that reads no global: its value, or what it raises. *)
Definition lift {A : Type} (r : exn + A) : M A := fun w => (w, r).

(** ** The GPS endpoint *)

(** The dictionary handed to [jsonify]. *)
Record gps_response : Type := mkResponse {
  status : string;
  ambulance_id : json;
  location : json * json
}.

(** [ambulance_data[k] = v] on the global. *)
Definition ambulance_data_setitem (k : json) (v : json * json) : M unit :=
  fun w =>
    match dict_setitem k v (ambulance_data w) with
    | inl e => (w, inl e)
    | inr d => (set_ambulance_data d w, inr tt)
    end.

(** [update_gps()], given [request.json]. *)
Definition update_gps (request_json : json) : M gps_response :=
  let data := request_json in
  ambulance_id ← lift (getitem data "ambulance_id");
  latitude ← lift (getitem data "latitude");
  longitude ← lift (getitem data "longitude");
  let gps_location := (latitude, longitude) in
  _ ← ambulance_data_setitem ambulance_id gps_location;
  mret {| status := "updated"; ambulance_id := ambulance_id;
          location := gps_location |}.

(** ** The disabled map-service stubs *)

(** The distance query is inside a string literal: the body is
    [return False]. *)
Definition is_ambulance_near {A : Type} (ambulance_gps : A) : bool := false.

(** Likewise the directions query: the body is [return "5 mins", "2 km"]. *)
Definition get_fastest_route {A B : Type} (ambulance_gps : A) (hospital_gps : B)
    : string * string :=
  ("5 mins", "2 km").

(** ** The signal state *)

Definition change_traffic_light (ambulance_detected : bool) (w : world) : world :=
  set_traffic_light (if ambulance_detected then GREEN else RED) w.

Definition draw_traffic_light (frame : Frame) (w : world) : Frame :=
  let light_color := traffic_light w in
  cv2_circle frame (50, 50) 30 light_color (-1).

(** ** Detection, the frame loop and the entry point *)

(** A capture as [cv2.VideoCapture] gives it: whether it opened, and the
    grids [read()] will return before it reports no frame. *)
Record capture : Type := mkCapture {
  isOpened : bool;
  stream : list (list (list color))
}.

(** The parsed command line: [args.path] ([None] when the option is not
    given) and [args.live]. *)
Record args : Type := mkArgs {
  path : option string;
  live : bool
}.

Definition detected_message : string :=
  "🚑 Ambulance detected! Turning traffic light GREEN.".
Definition not_detected_message : string :=
  "No ambulance detected. Traffic light stays RED.".
Definition usage_error : string :=
  "Error: Please provide either -p/--path for video or -l/--live for webcam.".
Definition window_name : string := "AmbuRouteAI - Ambulance Detection".

Section Program.
(** The detector, [model(frame)]. *)
Variable model : Frame -> list Result.
(** What opening a source finds. *)
Variable device : source -> capture.

Definition class_id (box : Box) : Z := py_int (cls box).

(** The body of the inner [for], on the frame and the flag. *)
Definition visit_box (st : Frame * bool) (box : Box) : Frame * bool :=
  let '(frame, ambulance_detected) := st in
  if class_id box =? 5 then
    let '(x1, y1, x2, y2) := xyxy box in
    let '(x1, y1, x2, y2) := (py_int x1, py_int y1, py_int x2, py_int y2) in
    let frame := cv2_rectangle frame (x1, y1) (x2, y2) (0, 255, 255) 3 in
    let frame :=
      cv2_putText frame "AMBULANCE" (x1, y1 - 10) FONT_HERSHEY_SIMPLEX
        font_scale (0, 255, 255) 2 in
    (frame, true)
  else (frame, ambulance_detected).

Definition visit_result (st : Frame * bool) (result : Result) : Frame * bool :=
  fold_left visit_box (boxes result) st.

(** [detect_ambulance(frame)]: the frame as it leaves, and the flag. *)
Definition detect_ambulance (frame : Frame) : Frame * bool :=
  let results := model frame in
  fold_left visit_result results (frame, false).

(** One pass of the [while] body after a successful read, up to
    [imshow]. *)
Definition loop_body (grid : list (list color)) (w : world) : world :=
  let frame := {| pixels := grid; drawn := [] |} in
  let '(frame, ambulance_detected) := detect_ambulance frame in
  let w :=
    emit (Print (if ambulance_detected then detected_message
                 else not_detected_message)) w in
  let w := change_traffic_light ambulance_detected w in
  let frame := draw_traffic_light frame w in
  emit (Imshow window_name frame) w.

(** [cv2.waitKey(1) & 0xFF == ord('q')]. *)
Definition quit_requested (key : Z) : bool :=
  Z.land key 255 =? ord "q".

(** The [while] loop on an opened capture: [keys] are the results of
    the successive [waitKey] calls, [-1] (no key) once they run out. *)
Fixpoint frame_loop (grids : list (list (list color))) (keys : list Z)
    (w : world) : world :=
  match grids with
  | [] => w
  | grid :: grids' =>
      let w := loop_body grid w in
      if quit_requested (hd (-1) keys) then w
      else frame_loop grids' (tl keys) w
  end.

Definition run_capture (src : source) (keys : list Z) (w : world) : world :=
  let w := emit (VideoCapture src) w in
  let cap := device src in
  let w := if isOpened cap then frame_loop (stream cap) keys w else w in
  emit DestroyAllWindows (emit Release w).

(** The [__main__] block, from the parsed arguments: the world at the
    end and the exit status.  [elif args.path] takes a non-empty string;
    [None] and the empty string are false. *)
Definition main (a : args) (keys : list Z) (w : world) : world * Z :=
  if live a then (run_capture (Camera 0) keys w, 0)
  else
    match path a with
    | Some (String _ _ as p) => (run_capture (File p) keys w, 0)
    | Some EmptyString | None =>
        (emit (Exit 1) (emit (Print usage_error) w), 1)
    end.

(** What can happen to the globals while the process lives: a frame is
    processed, or a request reaches the endpoint. *)
Inductive step : world -> world -> Prop :=
  | step_frame grid w : step w (loop_body grid w)
  | step_post body w : step w (fst (update_gps body w)).

Inductive reachable : world -> Prop :=
  | reach_init : reachable initial_world
  | reach_step w w' : reachable w -> step w w' -> reachable w'.
End Program.

(** ** Requests and sample inputs *)

(** The body is a JSON object that has the three fields. *)
Definition has_fields (body id latitude longitude : json) : Prop :=
  exists m, body = JObj m /\
    m !! "ambulance_id" = Some id /\
    m !! "latitude" = Some latitude /\
    m !! "longitude" = Some longitude.

(** A well-formed request: the three fields are there and the identifier
    can be a dictionary key (it is not a list or a dict). *)
Definition well_formed (body id latitude longitude : json) : Prop :=
  has_fields body id latitude longitude /\ hashable id = true.

Definition post (id latitude longitude : json) : json :=
  JObj (<["ambulance_id" := id]>
        (<["latitude" := latitude]> (<["longitude" := longitude]> ∅))).

(** The binary64 numbers 1.0, 2.0 and 3.0. *)
Definition f1_0 : json := JFloat (S754_finite false 4503599627370496 (-52)).
Definition f2_0 : json := JFloat (S754_finite false 4503599627370496 (-51)).
Definition f3_0 : json := JFloat (S754_finite false 6755399441055744 (-51)).

(** ** Vocabulary of the statements about frames *)

(** The two calls made for a box of the target class. *)
Definition box_rectangle (box : Box) : draw_op :=
  let '(x1, y1, x2, y2) := xyxy box in
  Rectangle (py_int x1, py_int y1) (py_int x2, py_int y2) (0, 255, 255) 3.

Definition box_label (box : Box) : draw_op :=
  let '(x1, y1, x2, y2) := xyxy box in
  PutText "AMBULANCE" (py_int x1, py_int y1 - 10) FONT_HERSHEY_SIMPLEX
    font_scale (0, 255, 255) 2.

(** All detections of a frame, result after result. *)
Definition detections (results : list Result) : list Box :=
  flat_map boxes results.

(** The frames the loop gets to process: up to the end of the stream or
    the first pass whose key is the quit key. *)
Fixpoint processed (grids : list (list (list color))) (keys : list Z)
    : list (list (list color)) :=
  match grids with
  | [] => []
  | grid :: grids' =>
      grid :: (if quit_requested (hd (-1) keys) then []
               else processed grids' (tl keys))
  end.

(** The sources opened in a trace, in order. *)
Definition opened (evs : list event) : list source :=
  flat_map (fun e => match e with VideoCapture src => [src] | _ => [] end) evs.

(** The signal shows one of its two colours. *)
Definition signal_ok (w : world) : Prop :=
  traffic_light w = RED \/ traffic_light w = GREEN.

(** A detector that finds nothing, one that finds a car and a bus, and a
    device with two frames to read. *)
Definition no_detector (frame : Frame) : list Result := [].

Definition car_box : Box :=
  {| cls := 2 # 1; xyxy := (1 # 1, 2 # 1, 3 # 1, 4 # 1) |}.
Definition bus_box : Box :=
  {| cls := 5 # 1; xyxy := (21 # 2, 20 # 1, 30 # 1, 40 # 1) |}.

Definition bus_detector (frame : Frame) : list Result :=
  [ {| boxes := [car_box; bus_box] |} ].

(** A detector that sees the bus in frames whose first row is not empty. *)
Definition row_detector (frame : Frame) : list Result :=
  match pixels frame with
  | (_ :: _) :: _ => [ {| boxes := [bus_box] |} ]
  | _ => [ {| boxes := [car_box] |} ]
  end.

(** A command line with both options, [-l -p video.mp4]. *)
Definition both_flags : args := {| path := Some "video.mp4"; live := true |}.

Definition two_frames : capture :=
  {| isOpened := true; stream := [ [[(1, 2, 3)]]; [[]] ] |}.

Definition sample_device (src : source) : capture := two_frames.

(** ** Vocabulary of the further properties *)

(** The float NaN as an identifier. *)
Definition nan : json := JFloat S754_nan.


(** A box counts as the target when its class id is 5. *)
Definition is_target (box : Box) : bool := class_id box =? 5.

Definition annotations (box : Box) : list draw_op :=
  [box_rectangle box; box_label box].

(** What one pass of the loop shows: the message, and the frame with its
    annotations and the signal disc. *)
Definition pass_events (model : Frame -> list Result)
    (grid : list (list color)) : list event :=
  let r := detect_ambulance model {| pixels := grid; drawn := [] |} in
  [Print (if snd r then detected_message else not_detected_message);
   Imshow window_name
     (draw (Circle (50, 50) 30 (if snd r then GREEN else RED) (-1)) (fst r))].

(** The colour a frame calls for. *)
Definition frame_colour (model : Frame -> list Result)
    (grid : list (list color)) : color :=
  if snd (detect_ambulance model {| pixels := grid; drawn := [] |})
  then GREEN else RED.

(** * Properties *)

(** ** Equality of keys and the dictionary *)

Lemma pynum_eq_sym a b : pynum_eq a b = pynum_eq b a.
Proof.
  destruct a, b; simpl; auto using Qeq_bool_comm.
  destruct negative, negative0; reflexivity.
Qed.

Lemma pynum_eq_trans a b c :
  pynum_eq a b = true -> pynum_eq b c = true -> pynum_eq a c = true.
Proof.
  destruct a, b, c; simpl; try discriminate.
  - destruct negative, negative0, negative1; simpl; congruence.
  - apply Qeq_bool_trans.
Qed.

Lemma pykey_eq_sym a b : pykey_eq a b = pykey_eq b a.
Proof.
  destruct a, b; simpl; auto using pynum_eq_sym, String.eqb_sym.
Qed.

Lemma pykey_eq_trans a b c :
  pykey_eq a b = true -> pykey_eq b c = true -> pykey_eq a c = true.
Proof.
  destruct a, b, c; simpl; try discriminate; auto.
  - apply pynum_eq_trans.
  - rewrite !String.eqb_eq. congruence.
Qed.

Lemma py_eq_sym a b : py_eq a b = py_eq b a.
Proof.
  unfold py_eq. destruct (hash_key a), (hash_key b); auto using pykey_eq_sym.
Qed.

Lemma py_eq_trans a b c :
  py_eq a b = true -> py_eq b c = true -> py_eq a c = true.
Proof.
  unfold py_eq.
  destruct (hash_key a), (hash_key b), (hash_key c); try discriminate.
  apply pykey_eq_trans.
Qed.

Lemma py_eq_hashable a b : py_eq a b = true -> hashable a = true /\ hashable b = true.
Proof.
  unfold py_eq, hashable.
  destruct (hash_key a), (hash_key b); try discriminate; auto.
Qed.

(** A string key equals exactly the same string. *)
Lemma py_eq_str s k : py_eq (JStr s) k = true <-> k = JStr s.
Proof.
  unfold py_eq. simpl. split.
  - destruct k; simpl; try discriminate.
    rewrite String.eqb_eq. congruence.
  - intros ->. simpl. apply String.eqb_refl.
Qed.

(** Every hashable value but NaN equals itself. *)
Lemma py_eq_refl k :
  hashable k = true -> k <> JFloat S754_nan -> py_eq k k = true.
Proof.
  unfold py_eq, hashable. destruct k; simpl; try discriminate; intros _ Hn;
    auto using Qeq_bool_refl, String.eqb_refl.
  destruct f as [s|s| |s m e]; simpl.
  - apply Qeq_bool_refl.
  - now destruct s.
  - congruence.
  - destruct e; simpl; apply Qeq_bool_refl.
Qed.

Lemma py_is_nan_eq a : py_is_nan a = true <-> a = nan.
Proof.
  unfold nan. split; [|now intros ->].
  destruct a; try discriminate. destruct f; try discriminate. reflexivity.
Qed.

(** NaN is equal to nothing. *)
Lemma py_eq_nan_l k : py_eq nan k = false.
Proof.
  unfold py_eq. simpl. destruct (hash_key k) as [[| [] |]|]; reflexivity.
Qed.

Lemma py_eq_nan k : py_eq k nan = false.
Proof. rewrite py_eq_sym. apply py_eq_nan_l. Qed.

(** A stored key matches when it is the NaN object looked for, or equal. *)
Lemma key_match_cases a b :
  key_match a b = true <-> (a = nan /\ b = nan) \/ py_eq a b = true.
Proof.
  unfold key_match. rewrite orb_true_iff, andb_true_iff, !py_is_nan_eq.
  reflexivity.
Qed.

Lemma key_match_py_eq a b : py_eq a b = true -> key_match a b = true.
Proof. intros H. apply key_match_cases. now right. Qed.


Lemma key_match_sym a b : key_match a b = key_match b a.
Proof. unfold key_match. now rewrite andb_comm, py_eq_sym. Qed.

Lemma key_match_trans a b c :
  key_match a b = true -> key_match b c = true -> key_match a c = true.
Proof.
  rewrite !key_match_cases.
  intros [[-> ->]|Hab] [[Hb ->]|Hbc].
  - now left.
  - now rewrite py_eq_nan_l in Hbc.
  - subst b. now rewrite py_eq_nan in Hab.
  - right. exact (py_eq_trans _ _ _ Hab Hbc).
Qed.

(** Every hashable value matches itself, NaN by identity. *)
Lemma key_match_refl k : hashable k = true -> key_match k k = true.
Proof.
  intros Hh. apply key_match_cases.
  destruct (py_is_nan k) eqn:E.
  - apply py_is_nan_eq in E. auto.
  - right. apply py_eq_refl; [exact Hh|].
    intros ->. discriminate.
Qed.

Lemma key_match_hashable a b :
  key_match a b = true -> hashable a = true /\ hashable b = true.
Proof.
  intros [[-> ->]|H]%key_match_cases; [now split|]. now apply py_eq_hashable.
Qed.

(** A string key matches exactly the same string. *)
Lemma key_match_str s k : key_match (JStr s) k = true <-> k = JStr s.
Proof.
  rewrite key_match_cases, py_eq_str. split; [|auto].
  intros [[H _]|H]; [discriminate|exact H].
Qed.

Lemma dict_setitem_hashable {V} k (v : V) d :
  hashable k = true -> dict_setitem k v d = inr (dict_set k v d).
Proof. destruct k; simpl; try discriminate; reflexivity. Qed.

Lemma dict_setitem_unhashable {V} k (v : V) d :
  hashable k = false -> dict_setitem k v d = inl (TypeError unhashable_key).
Proof. destruct k; simpl; try discriminate; reflexivity. Qed.

Section DictFacts.
Context {V : Type}.
Implicit Types (k : json) (v : V) (d : pydict V).

Lemma dict_get_set_same k v d :
  key_match k k = true -> dict_get k (dict_set k v d) = Some v.
Proof.
  intros Hk. induction d as [|[k0 v0] d IH]; simpl.
  - now rewrite Hk.
  - destruct (key_match k0 k) eqn:E; simpl; rewrite E; auto.
Qed.

Lemma dict_get_set_other k k' v d :
  key_match k' k = false -> dict_get k' (dict_set k v d) = dict_get k' d.
Proof.
  intros Hne. induction d as [|[k0 v0] d IH]; simpl.
  - rewrite key_match_sym. now rewrite Hne.
  - destruct (key_match k0 k) eqn:E; simpl.
    + destruct (key_match k0 k') eqn:E'; auto.
      rewrite key_match_sym in E'.
      now rewrite (key_match_trans _ _ _ E' E) in Hne.
    + now rewrite IH.
Qed.

(** Writing under a key that has an entry replaces its value and adds
    nothing. *)
Lemma dict_set_present k v d :
  dict_get k d <> None ->
  dict_get k (dict_set k v d) = Some v /\
  map fst (dict_set k v d) = map fst d.
Proof.
  induction d as [|[k0 v0] d IH]; simpl; [congruence|].
  destruct (key_match k0 k) eqn:E; simpl; rewrite E; auto.
  intros H. destruct (IH H) as [-> ->]. auto.
Qed.

Lemma dict_set_absent k v d :
  dict_get k d = None -> dict_set k v d = d ++ [(k, v)].
Proof.
  induction d as [|[k0 v0] d IH]; simpl; auto.
  destruct (key_match k0 k); [discriminate|]. intros H. now rewrite IH.
Qed.

(** A second write under the same key leaves no trace of the first. *)
Lemma dict_set_set k v1 v2 d :
  dict_get k (dict_set k v1 d) <> None ->
  dict_set k v2 (dict_set k v1 d) = dict_set k v2 d.
Proof.
  induction d as [|[k0 v0] d IH]; simpl.
  - destruct (key_match k k); [reflexivity|congruence].
  - destruct (key_match k0 k) eqn:E; simpl; rewrite E; auto.
    intros H. now rewrite IH.
Qed.

(** After a write the pair sits in an entry whose key is the one written
    or an equal one stored before. *)
Lemma dict_set_entry k v d :
  exists k0, In (k0, v) (dict_set k v d) /\ (k0 = k \/ py_eq k0 k = true).
Proof.
  induction d as [|[k0 v0] d IH]; simpl.
  - exists k. auto.
  - destruct (key_match k0 k) eqn:E.
    + exists k0. simpl. split; [now left|].
      apply key_match_cases in E as [[-> ->]|E]; auto.
    + destruct IH as (k1 & Hin & Hk). exists k1. simpl. auto.
Qed.
End DictFacts.

(** ** The GPS endpoint *)

Lemma has_fields_post id lat lon : has_fields (post id lat lon) id lat lon.
Proof. exists (<["ambulance_id" := id]> (<["latitude" := lat]> (<["longitude" := lon]> ∅))).
  repeat split; reflexivity.
Qed.

(** With the three fields present the handler is the one dictionary write. *)
Lemma update_gps_with_fields body id lat lon w :
  has_fields body id lat lon ->
  update_gps body w =
    match dict_setitem id (lat, lon) (ambulance_data w) with
    | inl e => (w, inl e)
    | inr d =>
        (set_ambulance_data d w,
         inr {| status := "updated"; ambulance_id := id; location := (lat, lon) |})
    end.
Proof.
  intros (m & -> & Hid & Hlat & Hlon).
  unfold update_gps, mbind, M_bind, lift, getitem.
  rewrite Hid, Hlat, Hlon. unfold ambulance_data_setitem.
  destruct (dict_setitem id (lat, lon) (ambulance_data w)); reflexivity.
Qed.

Lemma update_gps_well_formed body id lat lon w :
  well_formed body id lat lon ->
  update_gps body w =
    (set_ambulance_data (dict_set id (lat, lon) (ambulance_data w)) w,
     inr {| status := "updated"; ambulance_id := id; location := (lat, lon) |}).
Proof.
  intros [Hf Hh]. rewrite (update_gps_with_fields _ _ _ _ _ Hf).
  now rewrite dict_setitem_hashable.
Qed.

(** The handler writes nothing before it raises. *)
Lemma update_gps_raise_unchanged body w w' e :
  update_gps body w = (w', inl e) -> w' = w.
Proof.
  unfold update_gps, mbind, M_bind, lift, ambulance_data_setitem, mret, M_ret.
  destruct (getitem body "ambulance_id") as [e1|id]; [congruence|].
  destruct (getitem body "latitude") as [e2|lat]; [congruence|].
  destruct (getitem body "longitude") as [e3|lon]; [congruence|].
  destruct (dict_setitem id (lat, lon) (ambulance_data w)); congruence.
Qed.

(** A body that is not an object makes the first subscript a [TypeError]. *)
Lemma update_gps_not_object body w :
  (forall m, body <> JObj m) ->
  exists why, update_gps body w = (w, inl (TypeError why)).
Proof.
  intros H. unfold update_gps, mbind, M_bind, lift.
  destruct body; simpl; eauto. now destruct (H m).
Qed.

(** The request of the specification's example, on the module as loaded. *)
Example update_gps_A1 :
  update_gps (post (JStr "A1") f1_0 f2_0) initial_world =
    ({| ambulance_data := [(JStr "A1", (f1_0, f2_0))];
        traffic_light := RED; events := [] |},
     inr {| status := "updated"; ambulance_id := JStr "A1";
            location := (f1_0, f2_0) |}).
Proof. reflexivity. Qed.

(** The identifier of a well-formed request has its entry once the
    request has been served. *)
Lemma update_gps_then_stored body id lat lon w :
  well_formed body id lat lon ->
  dict_get id (ambulance_data (fst (update_gps body w))) = Some (lat, lon).
Proof.
  intros Hwf. rewrite (update_gps_well_formed _ _ _ _ w Hwf). simpl.
  apply dict_get_set_same, key_match_refl, Hwf.
Qed.

(** C3, as stated, fails: a body that has the three fields can carry an
    identifier that is a JSON array.  The subscripts succeed, the write
    [ambulance_data[ambulance_id] = gps_location] raises [TypeError], and
    nothing is stored and no response is built. *)
Lemma update_gps_list_id_raises :
  has_fields (post (JArr []) f1_0 f2_0) (JArr []) f1_0 f2_0 /\
  update_gps (post (JArr []) f1_0 f2_0) initial_world =
    (initial_world, inl (TypeError unhashable_key)).
Proof. split; [apply has_fields_post | reflexivity]. Qed.

(** C3 (amended): for every POST whose body is an object with
    [ambulance_id], [latitude] and [longitude], the identifier being
    hashable (not an array or an object), [update_gps] returns the response
    [{status: "updated", ambulance_id, location: (latitude, longitude)}]
    and stores the pair under the identifier: an entry whose key is the
    identifier, or an equal key stored earlier, holds the pair, and every
    identifier that equals itself (all but NaN) looks the pair up. *)
Theorem update_gps_stores_and_echoes body id lat lon w :
  has_fields body id lat lon ->
  hashable id = true ->
  exists w',
    update_gps body w =
      (w', inr {| status := "updated"; ambulance_id := id;
                  location := (lat, lon) |}) /\
    (exists k0, In (k0, (lat, lon)) (ambulance_data w') /\
                (k0 = id \/ py_eq k0 id = true)) /\
    (py_eq id id = true -> dict_get id (ambulance_data w') = Some (lat, lon)).
Proof.
  intros Hf Hh. eexists. split; [|split].
  - apply update_gps_well_formed. split; eassumption.
  - apply dict_set_entry.
  - intros Hid. simpl. apply dict_get_set_same, key_match_py_eq, Hid.
Qed.

Lemma update_gps_stores_and_echoes_witness :
  has_fields (post (JStr "A1") f1_0 f2_0) (JStr "A1") f1_0 f2_0 /\
  hashable (JStr "A1") = true /\
  exists w',
    update_gps (post (JStr "A1") f1_0 f2_0) initial_world =
      (w', inr {| status := "updated"; ambulance_id := JStr "A1";
                  location := (f1_0, f2_0) |}) /\
    (exists k0, In (k0, (f1_0, f2_0)) (ambulance_data w') /\
                (k0 = JStr "A1" \/ py_eq k0 (JStr "A1") = true)) /\
    (py_eq (JStr "A1") (JStr "A1") = true ->
     dict_get (JStr "A1") (ambulance_data w') = Some (f1_0, f2_0)).
Proof.
  split; [apply has_fields_post|].
  split; [reflexivity|].
  apply (update_gps_stores_and_echoes (post (JStr "A1") f1_0 f2_0)
           (JStr "A1") f1_0 f2_0 initial_world);
    [apply has_fields_post | reflexivity].
Defined.

(** C4: a well-formed POST whose identifier already has a stored entry
    replaces that entry's pair and adds no entry (the keys of the mapping
    stay as they were, in the same order); and after two well-formed POSTs
    in a row with one identifier, whatever it is, the mapping keeps the
    second pair only: it is exactly what the second POST alone would have
    left, and the second POST has added no entry. *)
Theorem update_gps_last_write_wins body2 id lat2 lon2 :
  well_formed body2 id lat2 lon2 ->
  (forall w,
     dict_get id (ambulance_data w) <> None ->
     let w' := fst (update_gps body2 w) in
     dict_get id (ambulance_data w') = Some (lat2, lon2) /\
     map fst (ambulance_data w') = map fst (ambulance_data w)) /\
  (forall body1 lat1 lon1 w,
     well_formed body1 id lat1 lon1 ->
     let w1 := fst (update_gps body1 w) in
     let w2 := fst (update_gps body2 w1) in
     dict_get id (ambulance_data w1) = Some (lat1, lon1) /\
     dict_get id (ambulance_data w2) = Some (lat2, lon2) /\
     map fst (ambulance_data w2) = map fst (ambulance_data w1) /\
     ambulance_data w2 = ambulance_data (fst (update_gps body2 w))).
Proof.
  intros H2. split.
  - intros w Hstored w'. subst w'.
    rewrite (update_gps_well_formed _ _ _ _ w H2). simpl.
    now apply dict_set_present.
  - intros body1 lat1 lon1 w H1 w1 w2. subst w2 w1.
    assert (Hid : key_match id id = true) by (apply key_match_refl, H2).
    rewrite (update_gps_well_formed _ _ _ _ w H1).
    rewrite !(update_gps_well_formed _ _ _ _ _ H2). simpl.
    assert (Hstored : dict_get id (dict_set id (lat1, lon1) (ambulance_data w))
                      <> None)
      by (rewrite dict_get_set_same by exact Hid; discriminate).
    split; [now apply dict_get_set_same|].
    split; [now apply dict_set_present|].
    split; [now apply dict_set_present|].
    now apply dict_set_set.
Qed.

Lemma update_gps_last_write_wins_witness :
  let body1 := post (JStr "A1") f1_0 f2_0 in
  let body2 := post (JStr "A1") f3_0 f1_0 in
  let w1 := fst (update_gps body1 initial_world) in
  let w2 := fst (update_gps body2 w1) in
  well_formed body2 (JStr "A1") f3_0 f1_0 /\
  well_formed body1 (JStr "A1") f1_0 f2_0 /\
  dict_get (JStr "A1") (ambulance_data w1) <> None /\
  ambulance_data w1 = [(JStr "A1", (f1_0, f2_0))] /\
  ambulance_data w2 = [(JStr "A1", (f3_0, f1_0))] /\
  (dict_get (JStr "A1") (ambulance_data w2) = Some (f3_0, f1_0) /\
   map fst (ambulance_data w2) = map fst (ambulance_data w1)) /\
  (dict_get (JStr "A1") (ambulance_data w1) = Some (f1_0, f2_0) /\
   dict_get (JStr "A1") (ambulance_data w2) = Some (f3_0, f1_0) /\
   map fst (ambulance_data w2) = map fst (ambulance_data w1) /\
   ambulance_data w2 = ambulance_data (fst (update_gps body2 initial_world))).
Proof.
  assert (Hwf2 : well_formed (post (JStr "A1") f3_0 f1_0) (JStr "A1") f3_0 f1_0)
    by (split; [apply has_fields_post | reflexivity]).
  assert (Hwf1 : well_formed (post (JStr "A1") f1_0 f2_0) (JStr "A1") f1_0 f2_0)
    by (split; [apply has_fields_post | reflexivity]).
  assert (Hst : dict_get (JStr "A1")
            (ambulance_data (fst (update_gps (post (JStr "A1") f1_0 f2_0)
                                    initial_world))) <> None)
    by (simpl; discriminate).
  split; [exact Hwf2|]. split; [exact Hwf1|]. split; [exact Hst|].
  split; [reflexivity|]. split; [reflexivity|].
  destruct (update_gps_last_write_wins (post (JStr "A1") f3_0 f1_0)
              (JStr "A1") f3_0 f1_0 Hwf2) as [Hone Htwo].
  split.
  - exact (Hone (fst (update_gps (post (JStr "A1") f1_0 f2_0) initial_world)) Hst).
  - exact (Htwo (post (JStr "A1") f1_0 f2_0) f1_0 f2_0 initial_world Hwf1).
Defined.

(** Two POSTs under the identifier NaN: the parser hands the dictionary
    the same NaN object each time, so the second overwrites the first. *)
Example update_gps_nan_twice :
  ambulance_data
    (fst (update_gps (post nan f3_0 f1_0)
            (fst (update_gps (post nan f1_0 f2_0) initial_world)))) =
    [(nan, (f3_0, f1_0))].
Proof. reflexivity. Qed.

(** C8: when the body is an object that lacks [ambulance_id], [latitude]
    or [longitude], [update_gps] raises [KeyError] for the first of the
    three that is missing; the exception leaves the handler (no response
    is returned) and the globals, the GPS mapping with them, are as they
    were. *)
Theorem update_gps_missing_field m w :
  m !! "ambulance_id" = None \/ m !! "latitude" = None \/
    m !! "longitude" = None ->
  exists key,
    update_gps (JObj m) w = (w, inl (KeyError key)) /\
    m !! key = None /\
    (key = "ambulance_id" \/ key = "latitude" \/ key = "longitude").
Proof.
  intros H. unfold update_gps, mbind, M_bind, lift, getitem.
  destruct (m !! "ambulance_id") as [id|] eqn:Hid;
    [|exists "ambulance_id"; auto].
  destruct (m !! "latitude") as [lat|] eqn:Hlat;
    [|exists "latitude"; auto].
  destruct (m !! "longitude") as [lon|] eqn:Hlon;
    [|exists "longitude"; auto].
  destruct H as [H|[H|H]]; discriminate.
Qed.

Lemma update_gps_missing_field_witness :
  exists key,
    update_gps (JObj (<["ambulance_id" := JStr "A1"]>
                       (<["longitude" := f2_0]> ∅)))
      (set_ambulance_data [(JStr "A1", (f1_0, f2_0))] initial_world) =
      (set_ambulance_data [(JStr "A1", (f1_0, f2_0))] initial_world,
       inl (KeyError key)) /\
    (<["ambulance_id" := JStr "A1"]> (<["longitude" := f2_0]> ∅) : gmap string json)
      !! key = None /\
    (key = "ambulance_id" \/ key = "latitude" \/ key = "longitude").
Proof.
  apply (update_gps_missing_field
           (<["ambulance_id" := JStr "A1"]> (<["longitude" := f2_0]> ∅))).
  right. left. reflexivity.
Defined.

(** C9: a well-formed POST changes at most the entry of its own
    identifier.  Every other key, that is every key the dictionary does
    not match with the identifier (neither the same object nor an equal
    value), looks up what it did before and keeps its entry; when the
    identifier is a string, that is every key other than this string.
    The signal state and the trace of the process are untouched. *)
Theorem update_gps_frame body id lat lon w :
  well_formed body id lat lon ->
  let w' := fst (update_gps body w) in
  (forall k, key_match k id = false ->
     dict_get k (ambulance_data w') = dict_get k (ambulance_data w)) /\
  (forall s k, id = JStr s -> k <> id ->
     dict_get k (ambulance_data w') = dict_get k (ambulance_data w)) /\
  (forall k0 v0, In (k0, v0) (ambulance_data w) -> key_match k0 id = false ->
     In (k0, v0) (ambulance_data w')) /\
  traffic_light w' = traffic_light w /\
  events w' = events w.
Proof.
  intros Hwf w'. subst w'. rewrite (update_gps_well_formed _ _ _ _ w Hwf).
  simpl. split; [|split; [|split; [|split]]]; auto.
  - intros k Hk. now apply dict_get_set_other.
  - intros s k -> Hk. apply dict_get_set_other.
    destruct (key_match k (JStr s)) eqn:E; auto.
    rewrite key_match_sym in E. apply key_match_str in E. contradiction.
  - intros k0 v0 Hin Hk. induction (ambulance_data w) as [|[k1 v1] d IH];
      simpl in *; [contradiction|].
    destruct Hin as [Heq|Hin].
    + inversion Heq; subst. rewrite Hk. now left.
    + destruct (key_match k1 id); simpl; auto.
Qed.

Lemma update_gps_frame_witness :
  let body := post (JStr "A2") f3_0 f1_0 in
  let w := set_ambulance_data [(JStr "A1", (f1_0, f2_0))] initial_world in
  let w' := fst (update_gps body w) in
  ambulance_data w' = [(JStr "A1", (f1_0, f2_0)); (JStr "A2", (f3_0, f1_0))] /\
  (forall k, key_match k (JStr "A2") = false ->
     dict_get k (ambulance_data w') = dict_get k (ambulance_data w)) /\
  (forall s k, JStr "A2" = JStr s -> k <> JStr "A2" ->
     dict_get k (ambulance_data w') = dict_get k (ambulance_data w)) /\
  (forall k0 v0, In (k0, v0) (ambulance_data w) ->
     key_match k0 (JStr "A2") = false -> In (k0, v0) (ambulance_data w')) /\
  traffic_light w' = traffic_light w /\
  events w' = events w.
Proof.
  split; [reflexivity|].
  apply (update_gps_frame (post (JStr "A2") f3_0 f1_0) (JStr "A2") f3_0 f1_0
           (set_ambulance_data [(JStr "A1", (f1_0, f2_0))] initial_world)).
  split; [apply has_fields_post | reflexivity].
Defined.

(** ** The map-service stubs *)

(** C6: whatever it is given, [is_ambulance_near] returns [False]. *)
Theorem is_ambulance_near_false (A : Type) (ambulance_gps : A) :
  is_ambulance_near ambulance_gps = false.
Proof. reflexivity. Qed.

(** C7: whatever it is given, [get_fastest_route] returns the pair
    [("5 mins", "2 km")]. *)
Theorem get_fastest_route_constant (A B : Type) (ambulance_gps : A)
    (hospital_gps : B) :
  get_fastest_route ambulance_gps hospital_gps = ("5 mins", "2 km").
Proof. reflexivity. Qed.

(** ** Detection *)

Lemma visit_box_target frame flag box :
  class_id box = 5 ->
  visit_box (frame, flag) box =
    (draw (box_label box) (draw (box_rectangle box) frame), true).
Proof.
  intros H. unfold visit_box, box_label, box_rectangle. rewrite H. simpl.
  destruct (xyxy box) as [[[x1 y1] x2] y2]. reflexivity.
Qed.

Lemma visit_box_other frame flag box :
  class_id box <> 5 -> visit_box (frame, flag) box = (frame, flag).
Proof.
  intros H. unfold visit_box. now apply Z.eqb_neq in H as ->.
Qed.

(** What the two loops leave: earlier drawings stay, a rectangle and a
    label are added per box of class 5, and the flag is raised by any of
    them. *)
Lemma fold_visit_box bs : forall frame flag,
  let r := fold_left visit_box bs (frame, flag) in
  pixels (fst r) = pixels frame /\
  (forall op, In op (drawn frame) -> In op (drawn (fst r))) /\
  (forall box, In box bs -> class_id box = 5 ->
     In (box_rectangle box) (drawn (fst r)) /\
     In (box_label box) (drawn (fst r))) /\
  (snd r = true <-> flag = true \/ exists box, In box bs /\ class_id box = 5) /\
  (snd r = false -> fst r = frame).
Proof.
  induction bs as [|b bs IH]; intros frame flag; cbv zeta; cbn [fold_left].
  - simpl. split; [|split; [|split; [|split]]]; auto.
    + intros box [].
    + split; auto. intros [H|(box & [] & _)]; auto.
  - destruct (Z.eq_dec (class_id b) 5) as [Hb|Hb].
    + rewrite (visit_box_target _ _ _ Hb).
      destruct (IH (draw (box_label b) (draw (box_rectangle b) frame)) true)
        as (Hpx & Hold & Hnew & Hflag & Hsame).
      assert (Ht : snd (fold_left visit_box bs
          (draw (box_label b) (draw (box_rectangle b) frame), true)) = true)
        by (apply Hflag; auto).
      split; [|split; [|split; [|split]]].
      * rewrite Hpx. reflexivity.
      * intros op Hop. apply Hold. simpl. rewrite !in_app_iff. auto.
      * intros box [->|Hin] Hc; [|now apply Hnew].
        split; apply Hold; simpl; rewrite !in_app_iff; simpl; auto.
      * split; [|auto]. intros _. right. exists b. split; [now left|exact Hb].
      * intros Hf. congruence.
    + rewrite (visit_box_other _ _ _ Hb).
      destruct (IH frame flag) as (Hpx & Hold & Hnew & Hflag & Hsame).
      split; [|split; [|split; [|split]]]; auto.
      * intros box [->|Hin] Hc; [contradiction|now apply Hnew].
      * split.
        -- intros H. apply Hflag in H as [H|(box & Hin & Hc)]; auto.
           right. exists box. split; [now right|exact Hc].
        -- intros [H|(box & [->|Hin] & Hc)]; [| contradiction |];
             apply Hflag; auto.
           right. exists box. split; assumption.
Qed.

Lemma fold_visit_result rs : forall frame flag,
  let r := fold_left visit_result rs (frame, flag) in
  pixels (fst r) = pixels frame /\
  (forall op, In op (drawn frame) -> In op (drawn (fst r))) /\
  (forall box, In box (detections rs) -> class_id box = 5 ->
     In (box_rectangle box) (drawn (fst r)) /\
     In (box_label box) (drawn (fst r))) /\
  (snd r = true <->
     flag = true \/ exists box, In box (detections rs) /\ class_id box = 5) /\
  (snd r = false -> fst r = frame).
Proof.
  induction rs as [|a rs IH]; intros frame flag; cbv zeta; cbn [fold_left].
  - simpl. split; [|split; [|split; [|split]]]; auto.
    + intros box [].
    + split; auto. intros [H|(box & [] & _)]; auto.
  - change (visit_result (frame, flag) a)
      with (fold_left visit_box (boxes a) (frame, flag)).
    pose proof (fold_visit_box (boxes a) frame flag) as Ha. cbv zeta in Ha.
    destruct (fold_left visit_box (boxes a) (frame, flag)) as [frame1 flag1].
    simpl in Ha. destruct Ha as (Hpx1 & Hold1 & Hnew1 & Hflag1 & Hsame1).
    destruct (IH frame1 flag1) as (Hpx & Hold & Hnew & Hflag & Hsame).
    unfold detections in *. cbn [flat_map].
    split; [|split; [|split; [|split]]].
    + congruence.
    + intros op Hop. apply Hold, Hold1, Hop.
    + intros box Hin Hc. apply in_app_iff in Hin as [Hin|Hin].
      * destruct (Hnew1 box Hin Hc). auto.
      * auto.
    + rewrite Hflag, Hflag1. split.
      * intros [[H|(box & Hin & Hc)]|(box & Hin & Hc)]; auto;
          right; exists box; rewrite in_app_iff; auto.
      * intros [H|(box & Hin & Hc)]; auto.
        apply in_app_iff in Hin as [Hin|Hin]; [left; right|right];
          exists box; auto.
    + intros Hf. rewrite (Hsame Hf). apply Hsame1.
      destruct flag1; auto.
      assert (snd (fold_left visit_result rs (frame1, true)) = true)
        by (apply Hflag; auto).
      congruence.
Qed.

(** The frame of the sample detector: the bus is boxed and labelled, the
    car is not. *)
Example detect_ambulance_bus :
  detect_ambulance bus_detector {| pixels := [[(1, 2, 3)]]; drawn := [] |} =
    ({| pixels := [[(1, 2, 3)]];
        drawn := [Rectangle (10, 20) (30, 40) (0, 255, 255) 3;
                  PutText "AMBULANCE" (10, 10) 0 font_scale (0, 255, 255) 2] |},
     true).
Proof. reflexivity. Qed.

(** C2: [detect_ambulance] reports "present" exactly when some detection
    of the frame has class id 5, where the class id is [int(box.cls[0])];
    when it does, the frame it leaves carries the rectangle at the
    corners of a detection of class 5 and the "AMBULANCE" label above it
    (every detection of class 5 gets both), on top of what the frame held
    before.  When it reports "absent" the frame is as it came. *)
Theorem detect_ambulance_present_iff (model : Frame -> list Result) frame :
  let r := detect_ambulance model frame in
  (snd r = true <->
     exists box, In box (detections (model frame)) /\ class_id box = 5) /\
  (snd r = true ->
     exists box, In box (detections (model frame)) /\ class_id box = 5 /\
       In (box_rectangle box) (drawn (fst r)) /\
       In (box_label box) (drawn (fst r))) /\
  (forall box, In box (detections (model frame)) -> class_id box = 5 ->
     In (box_rectangle box) (drawn (fst r)) /\
     In (box_label box) (drawn (fst r))) /\
  (forall op, In op (drawn frame) -> In op (drawn (fst r))) /\
  pixels (fst r) = pixels frame /\
  (snd r = false -> fst r = frame).
Proof.
  unfold detect_ambulance. cbv zeta.
  destruct (fold_visit_result (model frame) frame false)
    as (Hpx & Hold & Hnew & Hflag & Hsame).
  assert (Hiff : snd (fold_left visit_result (model frame) (frame, false)) = true
            <-> exists box, In box (detections (model frame)) /\ class_id box = 5).
  { rewrite Hflag. split; [intros [H|H]; [discriminate|exact H] | auto]. }
  split; [exact Hiff|].
  split; [|split; [exact Hnew|split; [exact Hold|split; [exact Hpx|exact Hsame]]]].
  intros Ht. apply Hiff in Ht as (box & Hin & Hc).
  exists box. destruct (Hnew box Hin Hc). auto.
Qed.

(** ** The signal state and the frame loop *)

Lemma loop_body_traffic_light model grid w :
  traffic_light (loop_body model grid w) =
    if snd (detect_ambulance model {| pixels := grid; drawn := [] |})
    then GREEN else RED.
Proof.
  unfold loop_body.
  destruct (detect_ambulance model {| pixels := grid; drawn := [] |})
    as [frame detected].
  reflexivity.
Qed.

Lemma loop_body_ambulance_data model grid w :
  ambulance_data (loop_body model grid w) = ambulance_data w.
Proof.
  unfold loop_body.
  destruct (detect_ambulance model {| pixels := grid; drawn := [] |})
    as [frame detected].
  reflexivity.
Qed.

(** What one pass adds to the trace: the message and the displayed frame,
    which carries the disc in the colour just set. *)
Lemma loop_body_events model grid w :
  let r := detect_ambulance model {| pixels := grid; drawn := [] |} in
  events (loop_body model grid w) =
    events w ++
    [Print (if snd r then detected_message else not_detected_message);
     Imshow window_name
       (draw (Circle (50, 50) 30 (if snd r then GREEN else RED) (-1)) (fst r))].
Proof.
  unfold loop_body. cbv zeta.
  destruct (detect_ambulance model {| pixels := grid; drawn := [] |})
    as [frame detected].
  simpl. now rewrite <- app_assoc.
Qed.

(** The loop is its body run over the frames it gets to process. *)
Lemma frame_loop_processed model grids : forall keys w,
  frame_loop model grids keys w =
    fold_left (fun w grid => loop_body model grid w) (processed grids keys) w.
Proof.
  induction grids as [|grid grids IH]; intros keys w; simpl; auto.
  destruct (quit_requested (hd (-1) keys)); simpl; auto.
Qed.

(** C1: [change_traffic_light] sets the signal to GREEN on "present" and
    to RED on "absent"; the loop runs its body on each frame it processes,
    and after the pass for a frame the signal is GREEN if
    [detect_ambulance] reported "present" for that very frame and RED
    otherwise, whatever the frames before it were and whatever state the
    pass started from. *)
Theorem signal_follows_current_frame (model : Frame -> list Result)
    grids keys w :
  let pass := fun w grid => loop_body model grid w in
  let present := fun grid =>
    snd (detect_ambulance model {| pixels := grid; drawn := [] |}) in
  (forall b w0,
     traffic_light (change_traffic_light b w0) = if b then GREEN else RED) /\
  frame_loop model grids keys w = fold_left pass (processed grids keys) w /\
  (forall before grid after,
     processed grids keys = before ++ grid :: after ->
     traffic_light (fold_left pass (before ++ [grid]) w) =
       if present grid then GREEN else RED) /\
  (forall grid w1 w2,
     traffic_light (pass w1 grid) = traffic_light (pass w2 grid)).
Proof.
  cbv zeta. split; [reflexivity|]. split; [apply frame_loop_processed|].
  split.
  - intros before grid after _. rewrite fold_left_app. simpl.
    apply loop_body_traffic_light.
  - intros grid w1 w2. now rewrite !loop_body_traffic_light.
Qed.

(** Two frames read from the sample device: the detector sees the bus in
    the first one only, and the signal is GREEN after the first pass and
    RED after the second. *)
Lemma signal_follows_current_frame_witness :
  let pass := fun w grid => loop_body row_detector grid w in
  processed (stream two_frames) [] = [] ++ [[(1, 2, 3)]] :: [[[]]] /\
  processed (stream two_frames) [] = [[[(1, 2, 3)]]] ++ [[]] :: [] /\
  traffic_light (fold_left pass ([] ++ [[[(1, 2, 3)]]]) initial_world) = GREEN /\
  traffic_light (fold_left pass ([[[(1, 2, 3)]]] ++ [[[]]]) initial_world) = RED.
Proof.
  destruct (signal_follows_current_frame row_detector (stream two_frames) []
              initial_world) as (_ & _ & Hframe & _).
  split; [reflexivity|]. split; [reflexivity|]. split.
  - exact (Hframe [] [[(1, 2, 3)]] [[[]]] eq_refl).
  - exact (Hframe [[[(1, 2, 3)]]] [[]] [] eq_refl).
Defined.

(** The endpoint, served or failed, leaves the signal and the trace. *)
Lemma update_gps_keeps_signal body w :
  traffic_light (fst (update_gps body w)) = traffic_light w /\
  events (fst (update_gps body w)) = events w.
Proof.
  unfold update_gps, mbind, M_bind, lift, ambulance_data_setitem, mret, M_ret.
  destruct (getitem body "ambulance_id") as [e1|id]; [auto|].
  destruct (getitem body "latitude") as [e2|lat]; [auto|].
  destruct (getitem body "longitude") as [e3|lon]; [auto|].
  destruct (dict_setitem id (lat, lon) (ambulance_data w)); auto.
Qed.

Lemma signal_ok_change b w : signal_ok (change_traffic_light b w).
Proof. destruct b; [right|left]; reflexivity. Qed.

Lemma signal_ok_loop_body model grid w : signal_ok (loop_body model grid w).
Proof.
  unfold signal_ok. rewrite loop_body_traffic_light.
  destruct (snd _); auto.
Qed.

Lemma signal_ok_frame_loop model grids : forall keys w,
  signal_ok w -> signal_ok (frame_loop model grids keys w).
Proof.
  induction grids as [|grid grids IH]; intros keys w Hw; simpl; auto.
  destruct (quit_requested (hd (-1) keys)).
  - apply signal_ok_loop_body.
  - apply IH, signal_ok_loop_body.
Qed.

Lemma signal_ok_main model device a keys w :
  signal_ok w -> signal_ok (fst (main model device a keys w)).
Proof.
  intros Hw. unfold main, run_capture.
  assert (Hrun : forall src, signal_ok
    (emit DestroyAllWindows (emit Release
       (if isOpened (device src)
        then frame_loop model (stream (device src)) keys (emit (VideoCapture src) w)
        else emit (VideoCapture src) w)))).
  { intros src. unfold signal_ok. simpl.
    destruct (isOpened (device src)); [|exact Hw].
    apply (signal_ok_frame_loop model). exact Hw. }
  destruct (live a); [apply Hrun|].
  destruct (path a) as [[|c p]|]; [exact Hw | apply Hrun | exact Hw].
Qed.

(** C10: the signal state is RED, [(0, 0, 255)], when the module is
    loaded; its one writer, [change_traffic_light], writes RED or GREEN,
    [(0, 255, 0)]; so in every state the process reaches, by passes of the
    frame loop and by requests to the endpoint in any order, and at the
    end of any run of the entry point, the signal is one of these two
    different values. *)
Theorem traffic_light_red_or_green (model : Frame -> list Result) :
  RED = (0, 0, 255) /\ GREEN = (0, 255, 0) /\ RED <> GREEN /\
  traffic_light initial_world = RED /\
  (forall b w, traffic_light (change_traffic_light b w) = RED \/
               traffic_light (change_traffic_light b w) = GREEN) /\
  (forall w, reachable model w -> signal_ok w) /\
  (forall device a keys,
     signal_ok (fst (main model device a keys initial_world))).
Proof.
  split; [reflexivity|]. split; [reflexivity|]. split; [discriminate|].
  split; [reflexivity|]. split; [exact signal_ok_change|]. split.
  - intros w Hreach. induction Hreach as [|w w' Hreach IH Hstep].
    + left. reflexivity.
    + destruct Hstep as [grid w|body w].
      * apply signal_ok_loop_body.
      * unfold signal_ok.
        now rewrite (proj1 (update_gps_keeps_signal body w)).
  - intros device a keys. apply signal_ok_main. left. reflexivity.
Qed.

(** ** The command line *)

Lemma opened_app evs1 evs2 : opened (evs1 ++ evs2) = opened evs1 ++ opened evs2.
Proof. unfold opened. apply flat_map_app. Qed.

Lemma opened_loop_body model grid w :
  opened (events (loop_body model grid w)) = opened (events w).
Proof.
  pose proof (loop_body_events model grid w) as H. cbv zeta in H.
  rewrite H, opened_app. simpl. apply app_nil_r.
Qed.

Lemma opened_frame_loop model grids : forall keys w,
  opened (events (frame_loop model grids keys w)) = opened (events w).
Proof.
  induction grids as [|grid grids IH]; intros keys w; simpl; auto.
  destruct (quit_requested (hd (-1) keys)).
  - apply opened_loop_body.
  - rewrite IH. apply opened_loop_body.
Qed.

(** A run on a source opens that source and no other. *)
Lemma opened_run_capture model device src keys w :
  opened (events (run_capture model device src keys w)) =
    opened (events w) ++ [src].
Proof.
  unfold run_capture. simpl. rewrite !opened_app. simpl. rewrite !app_nil_r.
  destruct (isOpened (device src)).
  - rewrite opened_frame_loop. simpl. rewrite opened_app. reflexivity.
  - simpl. rewrite opened_app. reflexivity.
Qed.

(** C5, as stated, fails: the two options are not mutually exclusive.
    Given both, the program reports no error: it opens the webcam, never
    the file, runs the loop and ends with status 0.  So it is not the case
    that every command line with both options is turned down. *)
Lemma main_accepts_both_flags :
  live both_flags = true /\ path both_flags = Some "video.mp4" /\
  ~ (forall a, live a = true -> path a <> None ->
       snd (main no_detector sample_device a [] initial_world) <> 0) /\
  snd (main no_detector sample_device both_flags [] initial_world) = 0 /\
  events (fst (main no_detector sample_device both_flags [] initial_world)) =
    [VideoCapture (Camera 0);
     Print not_detected_message;
     Imshow window_name
       {| pixels := [[(1, 2, 3)]]; drawn := [Circle (50, 50) 30 RED (-1)] |};
     Print not_detected_message;
     Imshow window_name
       {| pixels := [[]]; drawn := [Circle (50, 50) 30 RED (-1)] |};
     Release; DestroyAllWindows].
Proof.
  split; [reflexivity|]. split; [reflexivity|]. split; [|split; reflexivity].
  intros H. now apply (H both_flags).
Qed.

(** C5 (amended): the two options are alternatives of which [--live] wins.
    With [--live] the program opens the webcam and nothing else, whether
    or not a path is given, and ends with status 0; without it and with a
    non-empty path it opens that file and nothing else; with neither
    option (or with an empty path) it prints the error message and exits
    with status 1, opens no source and leaves the globals as they were. *)
Theorem main_source_selection (model : Frame -> list Result)
    (device : source -> capture) a keys w :
  let r := main model device a keys w in
  (live a = true ->
     r = (run_capture model device (Camera 0) keys w, 0) /\
     opened (events (fst r)) = opened (events w) ++ [Camera 0]) /\
  (live a = false -> forall c p, path a = Some (String c p) ->
     r = (run_capture model device (File (String c p)) keys w, 0) /\
     opened (events (fst r)) = opened (events w) ++ [File (String c p)]) /\
  (live a = false -> path a = None \/ path a = Some "" ->
     snd r = 1 /\
     events (fst r) = events w ++ [Print usage_error; Exit 1] /\
     opened (events (fst r)) = opened (events w) /\
     ambulance_data (fst r) = ambulance_data w /\
     traffic_light (fst r) = traffic_light w).
Proof.
  cbv zeta. unfold main. split; [|split].
  - intros ->. split; [reflexivity|]. apply opened_run_capture.
  - intros -> c p ->. split; [reflexivity|]. apply opened_run_capture.
  - intros -> [-> | ->]; simpl; (split; [reflexivity|]);
      (split; [now rewrite <- app_assoc|]); (split; [|auto]);
      rewrite !opened_app; simpl; now rewrite !app_nil_r.
Qed.

Lemma main_source_selection_witness :
  (let r := main no_detector sample_device {| path := None; live := false |}
              [] initial_world in
   snd r = 1 /\
   events (fst r) = events initial_world ++ [Print usage_error; Exit 1] /\
   opened (events (fst r)) = opened (events initial_world) /\
   ambulance_data (fst r) = ambulance_data initial_world /\
   traffic_light (fst r) = traffic_light initial_world) /\
  (let r := main no_detector sample_device both_flags [] initial_world in
   r = (run_capture no_detector sample_device (Camera 0) [] initial_world, 0) /\
   opened (events (fst r)) = opened (events initial_world) ++ [Camera 0]) /\
  (let r := main no_detector sample_device
              {| path := Some "video.mp4"; live := false |} [] initial_world in
   r = (run_capture no_detector sample_device (File "video.mp4") []
          initial_world, 0) /\
   opened (events (fst r)) = opened (events initial_world) ++ [File "video.mp4"]).
Proof.
  split; [|split].
  - exact (proj2 (proj2 (main_source_selection no_detector sample_device
                           {| path := None; live := false |} [] initial_world))
             eq_refl (or_introl eq_refl)).
  - exact (proj1 (main_source_selection no_detector sample_device
                    both_flags [] initial_world) eq_refl).
  - exact (proj1 (proj2 (main_source_selection no_detector sample_device
                           {| path := Some "video.mp4"; live := false |} []
                           initial_world))
             eq_refl "v"%char "ideo.mp4" eq_refl).
Defined.

(** * Further properties of the code *)

(** ** More on the dictionary *)

Section DictMore.
Context {V : Type}.
Implicit Types (k : json) (v : V) (d : pydict V).

(** Looking up a key that matches the one written gives the value
    written. *)
Lemma dict_get_set_eq k k' v d :
  key_match k' k = true -> dict_get k' (dict_set k v d) = Some v.
Proof.
  intros Hk. induction d as [|[k0 v0] d IH]; simpl.
  - rewrite key_match_sym. now rewrite Hk.
  - destruct (key_match k0 k) eqn:E; simpl.
    + rewrite key_match_sym in Hk. now rewrite (key_match_trans _ _ _ E Hk).
    + destruct (key_match k0 k') eqn:E'; auto.
      now rewrite (key_match_trans _ _ _ E' Hk) in E.
Qed.

(** A write keeps the keys there were and adds at most one at the end. *)
Lemma dict_set_keys k v d :
  exists tail, map fst (dict_set k v d) = map fst d ++ tail /\
               (length tail <= 1)%nat.
Proof.
  induction d as [|[k0 v0] d IH]; simpl.
  - exists [k]. auto.
  - destruct (key_match k0 k); simpl.
    + exists []. rewrite app_nil_r. auto.
    + destruct IH as (tail & -> & Hlen). exists tail. auto.
Qed.

(** Whether a key has an entry is decided by the keys alone. *)
Lemma dict_get_keys k d :
  dict_get k d <> None <->
  exists k0, In k0 (map fst d) /\ key_match k0 k = true.
Proof.
  induction d as [|[k0 v0] d IH]; simpl.
  - split; [congruence|]. intros (k1 & [] & _).
  - destruct (key_match k0 k) eqn:E.
    + split; [|congruence]. intros _. exists k0. auto.
    + rewrite IH. split.
      * intros (k1 & Hin & Hk). exists k1. auto.
      * intros (k1 & [->|Hin] & Hk); [congruence|]. exists k1. auto.
Qed.


End DictMore.

(** ** More on the GPS endpoint *)

(** X1: whatever the body, [update_gps] never touches the signal state
    or the trace of the process, and a request that raises leaves every
    global exactly as it was. *)
Theorem update_gps_failure_atomic body w :
  traffic_light (fst (update_gps body w)) = traffic_light w /\
  events (fst (update_gps body w)) = events w /\
  (forall e, snd (update_gps body w) = inl e -> fst (update_gps body w) = w).
Proof.
  destruct (update_gps_keeps_signal body w) as [Hl He].
  split; [exact Hl|]. split; [exact He|].
  intros e H. destruct (update_gps body w) as [w' r] eqn:E. simpl in *.
  subst r. now apply update_gps_raise_unchanged in E.
Qed.

Lemma update_gps_response_well_formed body w w' resp :
  update_gps body w = (w', inr resp) ->
  exists id lat lon, well_formed body id lat lon.
Proof.
  intros H.
  unfold update_gps, mbind, M_bind, lift, ambulance_data_setitem, mret, M_ret
    in H.
  destruct body; simpl in H; try discriminate.
  destruct (m !! "ambulance_id") as [id|] eqn:Hid; [|discriminate].
  destruct (m !! "latitude") as [lat|] eqn:Hlat; [|discriminate].
  destruct (m !! "longitude") as [lon|] eqn:Hlon; [|discriminate].
  exists id, lat, lon. split; [exists m; auto|].
  destruct id; simpl in *; try reflexivity; discriminate.
Qed.

(** X2: [update_gps] returns a response exactly for the well-formed
    requests: the body is an object that has the three fields and its
    identifier is hashable.  Every other body makes it raise. *)
Theorem update_gps_succeeds_iff_well_formed body w :
  (exists w' resp, update_gps body w = (w', inr resp)) <->
  (exists id lat lon, well_formed body id lat lon).
Proof.
  split.
  - intros (w' & resp & H). exact (update_gps_response_well_formed _ _ _ _ H).
  - intros (id & lat & lon & Hwf). rewrite (update_gps_well_formed _ _ _ _ w Hwf).
    eauto.
Qed.

(** X3: when the three fields are there and the identifier is a JSON
    array or object, the write raises [TypeError] (unhashable key):
    nothing is stored and no response is returned. *)
Theorem update_gps_unhashable_id body id lat lon w :
  has_fields body id lat lon ->
  hashable id = false ->
  update_gps body w = (w, inl (TypeError unhashable_key)).
Proof.
  intros Hf Hh. rewrite (update_gps_with_fields _ _ _ _ _ Hf).
  now rewrite dict_setitem_unhashable.
Qed.

Lemma update_gps_unhashable_id_witness :
  has_fields (post (JObj ∅) f1_0 f2_0) (JObj ∅) f1_0 f2_0 /\
  hashable (JObj ∅) = false /\
  update_gps (post (JObj ∅) f1_0 f2_0)
    (set_ambulance_data [(JStr "A1", (f1_0, f2_0))] initial_world) =
    (set_ambulance_data [(JStr "A1", (f1_0, f2_0))] initial_world,
     inl (TypeError unhashable_key)).
Proof.
  split; [apply has_fields_post|]. split; [reflexivity|].
  apply (update_gps_unhashable_id (post (JObj ∅) f1_0 f2_0) (JObj ∅) f1_0 f2_0);
    [apply has_fields_post | reflexivity].
Defined.

(** X4: posting the same well-formed request a second time changes
    nothing, for every identifier that equals itself (all but NaN). *)
Theorem update_gps_idempotent body id lat lon w :
  well_formed body id lat lon ->
  py_eq id id = true ->
  fst (update_gps body (fst (update_gps body w))) = fst (update_gps body w).
Proof.
  intros Hwf Hid. rewrite !(update_gps_well_formed _ _ _ _ _ Hwf). simpl.
  unfold set_ambulance_data. simpl. f_equal.
  apply dict_set_set.
  rewrite dict_get_set_same by (apply key_match_py_eq, Hid). discriminate.
Qed.

Lemma update_gps_idempotent_witness :
  well_formed (post (JInt 7) f1_0 f2_0) (JInt 7) f1_0 f2_0 /\
  py_eq (JInt 7) (JInt 7) = true /\
  fst (update_gps (post (JInt 7) f1_0 f2_0)
         (fst (update_gps (post (JInt 7) f1_0 f2_0) initial_world))) =
    fst (update_gps (post (JInt 7) f1_0 f2_0) initial_world).
Proof.
  assert (Hwf : well_formed (post (JInt 7) f1_0 f2_0) (JInt 7) f1_0 f2_0)
    by (split; [apply has_fields_post | reflexivity]).
  split; [exact Hwf|]. split; [reflexivity|].
  apply (update_gps_idempotent _ _ _ _ initial_world Hwf). reflexivity.
Defined.

(** X5: identifiers that compare equal in Python are one key, whatever
    their JSON types ([1], [1.0] and [true]).  A well-formed POST under an
    identifier equal to that of the POST before it overwrites that POST's
    pair: both identifiers then look up the new pair, and no entry is
    added. *)
Theorem update_gps_equal_identifiers_share_entry
    body1 body2 id1 id2 lat1 lon1 lat2 lon2 w :
  well_formed body1 id1 lat1 lon1 ->
  well_formed body2 id2 lat2 lon2 ->
  py_eq id1 id2 = true ->
  let w1 := fst (update_gps body1 w) in
  let w2 := fst (update_gps body2 w1) in
  dict_get id1 (ambulance_data w2) = Some (lat2, lon2) /\
  dict_get id2 (ambulance_data w2) = Some (lat2, lon2) /\
  map fst (ambulance_data w2) = map fst (ambulance_data w1).
Proof.
  intros H1 H2 Heq w1 w2. subst w2 w1.
  rewrite (update_gps_well_formed _ _ _ _ w H1).
  rewrite (update_gps_well_formed _ _ _ _ _ H2). simpl.
  assert (Heq' : key_match id2 id1 = true)
    by (apply key_match_py_eq; now rewrite py_eq_sym).
  assert (H12 : key_match id1 id2 = true) by (now apply key_match_py_eq).
  assert (H22 : key_match id2 id2 = true) by (apply key_match_refl, H2).
  split; [now apply dict_get_set_eq|]. split; [now apply dict_get_set_eq|].
  apply dict_set_present. rewrite (dict_get_set_eq id1 id2) by exact Heq'.
  discriminate.
Qed.

Lemma update_gps_equal_identifiers_share_entry_witness :
  let body1 := post (JInt 1) f1_0 f2_0 in
  let body2 := post (JBool true) f3_0 f1_0 in
  let w1 := fst (update_gps body1 initial_world) in
  let w2 := fst (update_gps body2 w1) in
  py_eq (JInt 1) (JBool true) = true /\
  ambulance_data w2 = [(JInt 1, (f3_0, f1_0))] /\
  dict_get (JInt 1) (ambulance_data w2) = Some (f3_0, f1_0) /\
  dict_get (JBool true) (ambulance_data w2) = Some (f3_0, f1_0) /\
  map fst (ambulance_data w2) = map fst (ambulance_data w1).
Proof.
  split; [reflexivity|]. split; [reflexivity|].
  apply (update_gps_equal_identifiers_share_entry
           (post (JInt 1) f1_0 f2_0) (post (JBool true) f3_0 f1_0)
           (JInt 1) (JBool true) f1_0 f2_0 f3_0 f1_0 initial_world).
  - split; [apply has_fields_post | reflexivity].
  - split; [apply has_fields_post | reflexivity].
  - reflexivity.
Defined.

(** X6: the float NaN is a key like any other, although it is not equal
    to itself: the dictionary finds the NaN object the parser shares.  A
    POST under NaN stores its pair under NaN, replaces the pair of an
    earlier NaN entry without adding an entry, and changes the lookup of
    no other key. *)
Theorem update_gps_nan_id_is_one_key body lat lon w :
  has_fields body nan lat lon ->
  let w' := fst (update_gps body w) in
  dict_get nan (ambulance_data w') = Some (lat, lon) /\
  (dict_get nan (ambulance_data w) <> None ->
     map fst (ambulance_data w') = map fst (ambulance_data w)) /\
  (dict_get nan (ambulance_data w) = None ->
     ambulance_data w' = ambulance_data w ++ [(nan, (lat, lon))]) /\
  (forall k, k <> nan ->
     dict_get k (ambulance_data w') = dict_get k (ambulance_data w)).
Proof.
  intros Hf w'. subst w'.
  assert (Hwf : well_formed body nan lat lon) by (split; [exact Hf|reflexivity]).
  rewrite (update_gps_well_formed _ _ _ _ w Hwf). simpl.
  split; [now apply dict_get_set_same|].
  split; [intros H; now apply dict_set_present|].
  split; [apply dict_set_absent|].
  intros k Hk. apply dict_get_set_other.
  destruct (key_match k nan) eqn:E; auto.
  apply key_match_cases in E as [[-> _]|E]; [contradiction|].
  now rewrite py_eq_nan in E.
Qed.

Lemma update_gps_nan_id_is_one_key_witness :
  let body := post nan f3_0 f1_0 in
  let w := fst (update_gps (post nan f1_0 f2_0)
             (fst (update_gps (post (JStr "A1") f1_0 f2_0) initial_world))) in
  let w' := fst (update_gps body w) in
  has_fields body nan f3_0 f1_0 /\
  ambulance_data w = [(JStr "A1", (f1_0, f2_0)); (nan, (f1_0, f2_0))] /\
  ambulance_data w' = [(JStr "A1", (f1_0, f2_0)); (nan, (f3_0, f1_0))] /\
  dict_get nan (ambulance_data w') = Some (f3_0, f1_0) /\
  (dict_get nan (ambulance_data w) <> None ->
     map fst (ambulance_data w') = map fst (ambulance_data w)) /\
  (dict_get nan (ambulance_data w) = None ->
     ambulance_data w' = ambulance_data w ++ [(nan, (f3_0, f1_0))]) /\
  (forall k, k <> nan ->
     dict_get k (ambulance_data w') = dict_get k (ambulance_data w)).
Proof.
  split; [apply has_fields_post|]. split; [reflexivity|]. split; [reflexivity|].
  apply (update_gps_nan_id_is_one_key (post nan f3_0 f1_0) f3_0 f1_0).
  apply has_fields_post.
Defined.

(** X7: two well-formed POSTs whose identifiers are different keys (the
    dictionary matches neither with the other) can be served in either
    order: every key looks up the same pair afterwards. *)
Theorem update_gps_commute body1 body2 id1 id2 lat1 lon1 lat2 lon2 w :
  well_formed body1 id1 lat1 lon1 ->
  well_formed body2 id2 lat2 lon2 ->
  key_match id1 id2 = false ->
  forall k,
    dict_get k (ambulance_data (fst (update_gps body2 (fst (update_gps body1 w))))) =
    dict_get k (ambulance_data (fst (update_gps body1 (fst (update_gps body2 w))))).
Proof.
  intros H1 H2 Hne k.
  rewrite (update_gps_well_formed _ _ _ _ w H1).
  rewrite (update_gps_well_formed _ _ _ _ w H2).
  rewrite (update_gps_well_formed _ _ _ _ _ H1).
  rewrite (update_gps_well_formed _ _ _ _ _ H2). simpl.
  destruct (key_match k id2) eqn:E2.
  - assert (E1 : key_match k id1 = false).
    { destruct (key_match k id1) eqn:E1; auto.
      rewrite key_match_sym in E1.
      now rewrite (key_match_trans _ _ _ E1 E2) in Hne. }
    rewrite (dict_get_set_eq id2 k) by exact E2.
    rewrite (dict_get_set_other id1 k) by exact E1.
    now rewrite (dict_get_set_eq id2 k) by exact E2.
  - rewrite (dict_get_set_other id2 k) by exact E2.
    destruct (key_match k id1) eqn:E1.
    + now rewrite !(dict_get_set_eq id1 k) by exact E1.
    + rewrite !(dict_get_set_other id1 k) by exact E1.
      now rewrite (dict_get_set_other id2 k) by exact E2.
Qed.

Lemma update_gps_commute_witness :
  let body1 := post (JStr "A1") f1_0 f2_0 in
  let body2 := post nan f3_0 f1_0 in
  key_match (JStr "A1") nan = false /\
  ambulance_data (fst (update_gps body2 (fst (update_gps body1 initial_world)))) =
    [(JStr "A1", (f1_0, f2_0)); (nan, (f3_0, f1_0))] /\
  ambulance_data (fst (update_gps body1 (fst (update_gps body2 initial_world)))) =
    [(nan, (f3_0, f1_0)); (JStr "A1", (f1_0, f2_0))] /\
  forall k,
    dict_get k (ambulance_data
                  (fst (update_gps body2 (fst (update_gps body1 initial_world))))) =
    dict_get k (ambulance_data
                  (fst (update_gps body1 (fst (update_gps body2 initial_world))))).
Proof.
  split; [reflexivity|]. split; [reflexivity|]. split; [reflexivity|].
  apply (update_gps_commute (post (JStr "A1") f1_0 f2_0)
           (post nan f3_0 f1_0) (JStr "A1") nan
           f1_0 f2_0 f3_0 f1_0 initial_world).
  - split; [apply has_fields_post | reflexivity].
  - split; [apply has_fields_post | reflexivity].
  - reflexivity.
Defined.

(** ** The mapping over the life of the process *)

Lemma step_keys model w w' :
  step model w w' ->
  exists tail, map fst (ambulance_data w') = map fst (ambulance_data w) ++ tail /\
               (length tail <= 1)%nat.
Proof.
  intros [grid w0|body w0].
  - rewrite loop_body_ambulance_data. exists [].
    split; [now rewrite app_nil_r | simpl; lia].
  - destruct (update_gps body w0) as [w1 [e|resp]] eqn:E; simpl.
    + apply update_gps_raise_unchanged in E as ->.
      exists []. split; [now rewrite app_nil_r | simpl; lia].
    + assert (Hwf : exists id lat lon, well_formed body id lat lon)
        by (exact (update_gps_response_well_formed _ _ _ _ E)).
      destruct Hwf as (id & lat & lon & Hwf).
      rewrite (update_gps_well_formed _ _ _ _ w0 Hwf) in E.
      inversion E; subst. simpl. apply dict_set_keys.
Qed.

(** X8: nothing is ever removed from the GPS mapping.  Over any sequence
    of frame passes and requests the keys stored stay where they are, new
    ones only come after them, and an identifier that has an entry keeps
    having one. *)
Theorem gps_mapping_only_grows (model : Frame -> list Result) w w' :
  rtc (step model) w w' ->
  (exists tail, map fst (ambulance_data w') = map fst (ambulance_data w) ++ tail) /\
  (forall k, dict_get k (ambulance_data w) <> None ->
             dict_get k (ambulance_data w') <> None).
Proof.
  intros Hsteps.
  assert (Hkeys : exists tail,
             map fst (ambulance_data w') = map fst (ambulance_data w) ++ tail).
  { induction Hsteps as [w|w w1 w2 Hstep _ IH].
    - exists []. now rewrite app_nil_r.
    - destruct (step_keys _ _ _ Hstep) as (t1 & H1 & _).
      destruct IH as (t2 & H2). exists (t1 ++ t2).
      now rewrite H2, H1, app_assoc. }
  split; [exact Hkeys|].
  destruct Hkeys as (tail & Hk). intros k. rewrite !dict_get_keys, Hk.
  intros (k0 & Hin & Heq). exists k0. rewrite in_app_iff. auto.
Qed.

Lemma gps_mapping_only_grows_witness :
  let w1 := fst (update_gps (post (JStr "A1") f1_0 f2_0) initial_world) in
  let w2 := loop_body row_detector [[(1, 2, 3)]] w1 in
  let w3 := fst (update_gps (post (JStr "A2") f3_0 f1_0) w2) in
  rtc (step row_detector) w1 w3 /\
  map fst (ambulance_data w1) = [JStr "A1"] /\
  map fst (ambulance_data w3) = [JStr "A1"; JStr "A2"] /\
  (exists tail, map fst (ambulance_data w3) = map fst (ambulance_data w1) ++ tail) /\
  (forall k, dict_get k (ambulance_data w1) <> None ->
             dict_get k (ambulance_data w3) <> None).
Proof.
  assert (Hrtc : rtc (step row_detector)
            (fst (update_gps (post (JStr "A1") f1_0 f2_0) initial_world))
            (fst (update_gps (post (JStr "A2") f3_0 f1_0)
               (loop_body row_detector [[(1, 2, 3)]]
                  (fst (update_gps (post (JStr "A1") f1_0 f2_0) initial_world)))))).
  { eapply rtc_l; [apply step_frame|].
    eapply rtc_l; [apply step_post|]. apply rtc_refl. }
  split; [exact Hrtc|]. split; [reflexivity|]. split; [reflexivity|].
  exact (gps_mapping_only_grows row_detector _ _ Hrtc).
Defined.



(** ** More on detection *)

(** X10: the class test truncates: a detection counts as class 5, and is
    reported and boxed, exactly when its class value lies in [5, 6). *)
Theorem class_id_five_iff box :
  class_id box = 5 <-> (5 <= cls box)%Q /\ (cls box < 6)%Q.
Proof.
  unfold class_id. destruct (cls box) as [n d].
  unfold py_int, Qle, Qlt. simpl.
  assert (Hd : 0 < Z.pos d) by reflexivity.
  split.
  - intros H.
    assert (Hn : 0 <= n).
    { destruct (Z.le_gt_cases 0 n) as [?|Hneg]; [assumption|].
      pose proof (Z.quot_opp_l n (Z.pos d) ltac:(lia)) as Ho.
      pose proof (Z.quot_pos (- n) (Z.pos d) ltac:(lia) Hd). lia. }
    rewrite Z.quot_div_nonneg in H by lia.
    pose proof (Z.div_mod n (Z.pos d) ltac:(lia)).
    pose proof (Z.mod_pos_bound n (Z.pos d) Hd). nia.
  - intros [H1 H2].
    rewrite Z.quot_div_nonneg by lia.
    symmetry. apply (Z.div_unique n (Z.pos d) 5 (n - 5 * Z.pos d)); lia.
Qed.

Lemma fold_visit_box_exact bs : forall frame flag,
  fold_left visit_box bs (frame, flag) =
    ({| pixels := pixels frame;
        drawn := drawn frame ++ flat_map annotations (List.filter is_target bs) |},
     flag || existsb is_target bs).
Proof.
  induction bs as [|b bs IH]; intros frame flag; cbn [fold_left].
  - simpl. rewrite app_nil_r, orb_false_r. now destruct frame.
  - cbn [List.filter existsb]. destruct (is_target b) eqn:Ht; unfold is_target in Ht.
    + apply Z.eqb_eq in Ht. rewrite (visit_box_target _ _ _ Ht), IH. simpl.
      rewrite <- !app_assoc. simpl. now rewrite orb_true_r.
    + apply Z.eqb_neq in Ht. rewrite (visit_box_other _ _ _ Ht), IH. reflexivity.
Qed.

Lemma fold_visit_result_exact rs : forall frame flag,
  fold_left visit_result rs (frame, flag) =
    ({| pixels := pixels frame;
        drawn := drawn frame ++
                 flat_map annotations (List.filter is_target (detections rs)) |},
     flag || existsb is_target (detections rs)).
Proof.
  induction rs as [|a rs IH]; intros frame flag; cbn [fold_left].
  - simpl. rewrite app_nil_r, orb_false_r. now destruct frame.
  - change (visit_result (frame, flag) a)
      with (fold_left visit_box (boxes a) (frame, flag)).
    rewrite fold_visit_box_exact, IH. unfold detections. cbn [flat_map pixels drawn].
    rewrite List.filter_app, flat_map_app, existsb_app, <- app_assoc, orb_assoc.
    reflexivity.
Qed.

(** X11: [detect_ambulance] draws nothing but the annotations of the
    class-5 detections: to what the frame held it adds, in the detector's
    order, one rectangle and one label per such detection (two calls
    each), nothing for any other detection, and the pixels read stay. *)
Theorem detect_ambulance_annotations (model : Frame -> list Result) frame :
  detect_ambulance model frame =
    ({| pixels := pixels frame;
        drawn := drawn frame ++
                 flat_map annotations
                   (List.filter is_target (detections (model frame))) |},
     existsb is_target (detections (model frame))).
Proof. unfold detect_ambulance. cbv zeta. apply fold_visit_result_exact. Qed.

(** ** More on the frame loop and the entry point *)

Lemma frame_loop_ambulance_data model grids : forall keys w,
  ambulance_data (frame_loop model grids keys w) = ambulance_data w.
Proof.
  induction grids as [|grid grids IH]; intros keys w; simpl; auto.
  destruct (quit_requested (hd (-1) keys)).
  - apply loop_body_ambulance_data.
  - rewrite IH. apply loop_body_ambulance_data.
Qed.

Lemma frame_loop_events model grids : forall keys w,
  events (frame_loop model grids keys w) =
    events w ++ flat_map (pass_events model) (processed grids keys).
Proof.
  induction grids as [|grid grids IH]; intros keys w; simpl.
  - now rewrite app_nil_r.
  - pose proof (loop_body_events model grid w) as Hb. cbv zeta in Hb.
    destruct (quit_requested (hd (-1) keys)).
    + rewrite Hb. simpl. reflexivity.
    + rewrite IH, Hb, <- app_assoc. reflexivity.
Qed.

(** X12: the video side never writes the GPS mapping: whatever the
    arguments, the frames and the keys, [ambulance_data] is after the run
    what it was before. *)
Theorem main_keeps_gps_mapping (model : Frame -> list Result)
    (device : source -> capture) a keys w :
  ambulance_data (fst (main model device a keys w)) = ambulance_data w.
Proof.
  assert (Hrun : forall src,
    ambulance_data (run_capture model device src keys w) = ambulance_data w).
  { intros src. unfold run_capture. simpl.
    destruct (isOpened (device src)); [|reflexivity].
    now rewrite frame_loop_ambulance_data. }
  unfold main. destruct (live a); [apply Hrun|].
  destruct (path a) as [[|c p]|]; [reflexivity | apply Hrun | reflexivity].
Qed.

(** X13: the trace of a run on a source, in full: the capture is opened,
    every processed frame prints its message and is shown once, in order,
    with the signal disc drawn last in the colour of that frame's verdict
    (no frame at all when the capture did not open), and the run ends
    with the release of the capture and the closing of the windows. *)
Theorem run_capture_trace (model : Frame -> list Result)
    (device : source -> capture) src keys w :
  events (run_capture model device src keys w) =
    events w ++
    [VideoCapture src] ++
    flat_map (pass_events model)
      (if isOpened (device src) then processed (stream (device src)) keys
       else []) ++
    [Release; DestroyAllWindows].
Proof.
  unfold run_capture. simpl. destruct (isOpened (device src)).
  - rewrite frame_loop_events. simpl. rewrite <- !app_assoc. reflexivity.
  - simpl. rewrite <- !app_assoc. reflexivity.
Qed.

(** X14: a source that does not open is not reported.  Whether it is the
    webcam or the file of the path option (a file that does not exist,
    say), the program reads no frame, leaves the signal as it was,
    releases the capture, closes the windows and ends with status 0, as
    after a normal run. *)
Theorem unopened_source_is_silent (model : Frame -> list Result)
    (device : source -> capture) a src keys w :
  (live a = true /\ src = Camera 0) \/
  (live a = false /\ exists c p, path a = Some (String c p) /\
                                 src = File (String c p)) ->
  isOpened (device src) = false ->
  main model device a keys w =
    (emit DestroyAllWindows (emit Release (emit (VideoCapture src) w)), 0) /\
  traffic_light (fst (main model device a keys w)) = traffic_light w.
Proof.
  intros [[Hl ->]|(Hl & c & p & Hp & ->)] Ho; unfold main, run_capture;
    rewrite Hl; [|rewrite Hp]; rewrite Ho; auto.
Qed.

Lemma unopened_source_is_silent_witness :
  let device := fun _ : source => {| isOpened := false; stream := [[[(1, 2, 3)]]] |} in
  let a := {| path := Some "missing.mp4"; live := false |} in
  isOpened (device (File "missing.mp4")) = false /\
  main bus_detector device a [] initial_world =
    ({| ambulance_data := []; traffic_light := RED;
        events := [VideoCapture (File "missing.mp4"); Release;
                   DestroyAllWindows] |}, 0) /\
  traffic_light (fst (main bus_detector device a [] initial_world)) = RED.
Proof.
  split; [reflexivity|].
  apply (unopened_source_is_silent bus_detector
           (fun _ : source => {| isOpened := false; stream := [[[(1, 2, 3)]]] |})
           {| path := Some "missing.mp4"; live := false |}
           (File "missing.mp4") [] initial_world).
  - right. split; [reflexivity|]. exists "m"%char, "issing.mp4". split; reflexivity.
  - reflexivity.
Defined.

(** X15: only the low byte of the key code is looked at: the loop is left
    exactly on codes congruent to 113, the code of [q], modulo 256; no key
    ([-1]) does not leave it. *)
Theorem quit_requested_low_byte key :
  (quit_requested key = true <-> key mod 256 = 113) /\
  quit_requested (-1) = false.
Proof.
  split; [|reflexivity].
  unfold quit_requested. change 255 with (Z.ones 8).
  rewrite Z.land_ones by lia. change (ord "q") with 113.
  change (2 ^ 8) with 256. apply Z.eqb_eq.
Qed.

Lemma processed_no_quit grids : forall keys,
  Forall (fun k => quit_requested k = false) keys ->
  processed grids keys = grids.
Proof.
  induction grids as [|grid grids IH]; intros keys Hk; simpl; auto.
  destruct Hk as [|k keys Hk0 Hk]; simpl.
  - rewrite IH; auto.
  - rewrite Hk0. rewrite IH; auto.
Qed.

Lemma processed_quit_at pre : forall grids q post,
  Forall (fun k => quit_requested k = false) pre ->
  quit_requested q = true ->
  processed grids (pre ++ q :: post) = take (S (length pre)) grids.
Proof.
  induction pre as [|k pre IH]; intros grids q post Hpre Hq;
    destruct grids as [|grid grids]; simpl; auto.
  - rewrite Hq. now rewrite take_0.
  - inversion Hpre; subst. rewrite H1. f_equal. now apply IH.
Qed.

(** X16: when no key read asks to quit, the loop processes every frame of
    the stream, in order, and stops at its end. *)
Theorem frame_loop_runs_to_end (model : Frame -> list Result) grids keys w :
  Forall (fun k => quit_requested k = false) keys ->
  frame_loop model grids keys w =
    fold_left (fun w grid => loop_body model grid w) grids w /\
  events (frame_loop model grids keys w) =
    events w ++ flat_map (pass_events model) grids.
Proof.
  intros Hk. rewrite frame_loop_events, frame_loop_processed.
  now rewrite (processed_no_quit grids keys Hk).
Qed.

Lemma frame_loop_runs_to_end_witness :
  Forall (fun k => quit_requested k = false) [-1; 81] /\
  frame_loop row_detector (stream two_frames) [-1; 81] initial_world =
    fold_left (fun w grid => loop_body row_detector grid w)
      (stream two_frames) initial_world /\
  events (frame_loop row_detector (stream two_frames) [-1; 81] initial_world) =
    events initial_world ++ flat_map (pass_events row_detector) (stream two_frames).
Proof.
  assert (Hk : Forall (fun k => quit_requested k = false) [-1; 81])
    by (repeat constructor).
  split; [exact Hk|].
  exact (frame_loop_runs_to_end row_detector (stream two_frames) [-1; 81]
           initial_world Hk).
Defined.

(** X17: the quit key is checked after the frame has been shown: when the
    first quit key comes at the pass number [n + 1], exactly the first
    [n + 1] frames are processed (the first frame always is, if there is
    one) and no later frame is read. *)
Theorem frame_loop_quit_at (model : Frame -> list Result) grids pre q post w :
  Forall (fun k => quit_requested k = false) pre ->
  quit_requested q = true ->
  frame_loop model grids (pre ++ q :: post) w =
    fold_left (fun w grid => loop_body model grid w)
      (take (S (length pre)) grids) w /\
  events (frame_loop model grids (pre ++ q :: post) w) =
    events w ++ flat_map (pass_events model) (take (S (length pre)) grids).
Proof.
  intros Hpre Hq. rewrite frame_loop_events, frame_loop_processed.
  now rewrite (processed_quit_at pre grids q post Hpre Hq).
Qed.

Lemma frame_loop_quit_at_witness :
  Forall (fun k => quit_requested k = false) [] /\
  quit_requested 113 = true /\
  frame_loop row_detector (stream two_frames) ([] ++ 113 :: [-1]) initial_world =
    fold_left (fun w grid => loop_body row_detector grid w)
      (take 1 (stream two_frames)) initial_world /\
  events (frame_loop row_detector (stream two_frames) ([] ++ 113 :: [-1])
            initial_world) =
    events initial_world ++
    flat_map (pass_events row_detector) (take 1 (stream two_frames)).
Proof.
  split; [constructor|]. split; [reflexivity|].
  exact (frame_loop_quit_at row_detector (stream two_frames) [] 113 [-1]
           initial_world (List.Forall_nil _) eq_refl).
Defined.

(** X18: at the end of a run on a source the signal shows the verdict on
    the last frame processed, and it is what it was before the run when no
    frame was processed (the capture did not open, or had no frame). *)
Theorem run_capture_final_signal (model : Frame -> list Result)
    (device : source -> capture) src keys w :
  traffic_light (run_capture model device src keys w) =
    match last (if isOpened (device src)
                then processed (stream (device src)) keys else []) with
    | Some grid => frame_colour model grid
    | None => traffic_light w
    end.
Proof.
  unfold run_capture. simpl. destruct (isOpened (device src)); [|reflexivity].
  rewrite frame_loop_processed.
  generalize (processed (stream (device src)) keys). intros l.
  induction l as [|grid l IH] using rev_ind; [reflexivity|].
  rewrite fold_left_app, last_snoc. simpl. apply loop_body_traffic_light.
Qed.
